(** * DNA Sequence Comparator: a shallow embedding of [src/cpp/compare.cpp]

    The program compares two files chunk by chunk.  The embedding keeps the
    objects the C++ code manipulates:

    - the file system is a partial map from paths to what can be opened
      for reading: a regular file with its content, or a directory, which
      opens but has no size;
    - a [std::ifstream] is a record holding the bytes not yet extracted, the
      [eofbit] and [failbit] of its state and the value of [gcount()];
    - the two [std::vector<char>] scratch buffers are byte lists that
      [read] overwrites from the front, so stale bytes of an earlier chunk
      stay behind a short read exactly as they do in memory;
    - every observable action (opening, metadata query, [read], [memcmp],
      message on [std::cerr]) is appended to a trace, which is what lets
      statements such as "no content is read" be expressed.

    Sizes ([std::size_t], [std::uintmax_t], [std::streamsize]) are binary
    naturals [N]; the only place where the source does arithmetic on them is
    [main], where the 64-bit wrap-around is written out.

    Exceptions are outcomes: [fs::file_size] throws on a directory,
    [std::vector<char>(n)] throws [std::length_error] when [n] exceeds
    [max_size()], [std::stoul] throws on a bad argument, and none of them
    is caught.

    Outside the model: exhaustion of memory ([std::bad_alloc]), I/O errors
    of the device ([badbit]), special files other than directories, and the
    wall-clock measurement printed by [main]. *)

From Equations Require Import Equations.
From Equations.Prop Require Import Logic.
From Stdlib Require Import List Arith NArith ZArith Lia Bool.
From Stdlib Require Import Strings.String Strings.Ascii Strings.Byte.
Import ListNotations.

Local Open Scope string_scope.
Local Open Scope list_scope.

(** ** The environment: files and observable events *)

Definition path := string.

(** What a path that can be opened for reading names. *)
Inductive node :=
| Regular (content : list byte)
| Directory.

(** A file system maps a path to the node it names, when that node can be
    opened for reading. *)
Definition filesystem := path -> option node.

(** Which of the two streams of [compare_files] an event belongs to. *)
Inductive stream_id := File1 | File2.

Inductive event :=
| EvOpen (p : path)                              (* std::ifstream constructor *)
| EvStderr (msg : string)                        (* std::cerr << msg *)
| EvFileSize (p : path)                          (* fs::file_size(p) *)
| EvRead (f : stream_id) (requested got : N)     (* f.read(buf, requested); got = f.gcount() *)
| EvMemcmp (len : N).                            (* std::memcmp(_, _, len) *)

Definition trace := list event.

Definition is_read (e : event) : bool :=
  match e with EvRead _ _ _ => true | _ => false end.


(** ** Exceptions *)

Inductive exception :=
| filesystem_error      (* thrown by fs::file_size *)
| length_error          (* thrown by std::vector<char>(n) *)
| invalid_argument      (* thrown by std::stoul: no conversion *)
| out_of_range.         (* thrown by std::stoul: value does not fit *)

(** A call either completes with a value or leaves by an exception. *)
Inductive outcome (A : Type) :=
| Done (a : A)
| Throw (e : exception).
Arguments Done {A} a.
Arguments Throw {A} e.

(** ** [std::ifstream] *)

Record ifstream := mk_ifstream {
  is_open : bool;          (* file1.is_open() *)
  rest    : list byte;     (* bytes of the file not yet extracted *)
  eofbit  : bool;
  failbit : bool;
  gcount  : N              (* characters extracted by the last read *)
}.

(** [std::ifstream f(p, std::ios::binary)]: a path that cannot be opened
    leaves the stream closed with [failbit] set.  A directory opens; it has
    no bytes to deliver. *)
Definition ifstream_open (fsys : filesystem) (p : path) : ifstream :=
  match fsys p with
  | Some (Regular content) => mk_ifstream true content false false 0
  | Some Directory => mk_ifstream true [] false false 0
  | None => mk_ifstream false [] false true 0
  end.

(** [good()]: no state bit is set. *)
Definition good (s : ifstream) : bool := negb (eofbit s) && negb (failbit s).

(** [operator bool], i.e. [!fail()]. *)
Definition ifstream_bool (s : ifstream) : bool := negb (failbit s).

Definition length_N (l : list byte) : N := N.of_nat (List.length l).

(** [fs::file_size(p)]: the length recorded for a regular file; an
    exception for a directory and for a path that names nothing. *)
Definition file_size (fsys : filesystem) (p : path) : outcome N :=
  match fsys p with
  | Some (Regular content) => Done (length_N content)
  | Some Directory => Throw filesystem_error
  | None => Throw filesystem_error
  end.

(** [s.read(buf, n)].  The sentry fails on a stream that is not good: then
    nothing is extracted, [failbit] is set and [gcount()] is 0.  Otherwise
    [min n (available)] bytes are moved to the front of the buffer, and a
    short read sets [eofbit | failbit]. *)
Definition ifstream_read (s : ifstream) (buf : list byte) (n : N)
  : ifstream * list byte :=
  if good s then
    let k := N.min n (length_N (rest s)) in
    let got := firstn (N.to_nat k) (rest s) in
    let short := negb (k =? n)%N in
    (mk_ifstream (is_open s) (skipn (N.to_nat k) (rest s))
                 (eofbit s || short) (failbit s || short) k,
     got ++ skipn (N.to_nat k) buf)
  else
    (mk_ifstream (is_open s) (rest s) (eofbit s) true 0, buf).

(** ** [std::memcmp] *)

(** Bytes are compared as [unsigned char]; the result is the sign of the
    first difference within the first [k] positions. *)
Fixpoint memcmp_nat (a b : list byte) (k : nat) {struct k} : Z :=
  match k, a, b with
  | S k', x :: a', y :: b' =>
      match (Byte.to_N x ?= Byte.to_N y)%N with
      | Eq => memcmp_nat a' b' k'
      | Lt => (-1)%Z
      | Gt => 1%Z
      end
  | _, _, _ => 0%Z
  end.

Definition memcmp (a b : list byte) (k : N) : Z := memcmp_nat a b (N.to_nat k).

(** ** [std::vector<char>] *)

(** [max_size()] of a [std::vector<char>]: [PTRDIFF_MAX]. *)
Definition vector_max_size : N := 2 ^ 63 - 1.

Definition zeros (n : N) : list byte := repeat x00 (N.to_nat n).

(** [std::vector<char> buffer(n)]: [n] zero bytes, or [std::length_error]
    when [n] exceeds [max_size()]. *)
Definition new_buffer (n : N) : outcome (list byte) :=
  if (vector_max_size <? n)%N then Throw length_error else Done (zeros n).

(** ** The read loop of [compare_files] *)

Record loop_state := mk_state {
  file1   : ifstream;
  file2   : ifstream;
  buffer1 : list byte;
  buffer2 : list byte;
  events  : trace
}.

(** How one pass through the loop body ends. *)
Inductive iter_result :=
| Return (b : bool)   (* return b; *)
| Break               (* break; *)
| Continue.           (* fall through to the loop test *)

(** The loop test [file1 && file2]. *)
Definition loop_cond (st : loop_state) : bool :=
  ifstream_bool (file1 st) && ifstream_bool (file2 st).

(** The loop body, lines 53-69. *)
Definition loop_body (n : N) (st : loop_state) : iter_result * loop_state :=
  let '(f1, b1) := ifstream_read (file1 st) (buffer1 st) n in
  let '(f2, b2) := ifstream_read (file2 st) (buffer2 st) n in
  let bytes_read1 := gcount f1 in
  let bytes_read2 := gcount f2 in
  let tr := events st ++ [EvRead File1 n bytes_read1; EvRead File2 n bytes_read2] in
  if negb (bytes_read1 =? bytes_read2)%N then
    (Return false, mk_state f1 f2 b1 b2 tr)
  else if (bytes_read1 =? 0)%N then
    (Break, mk_state f1 f2 b1 b2 tr)
  else
    let tr' := tr ++ [EvMemcmp bytes_read1] in
    if negb (memcmp b1 b2 bytes_read1 =? 0)%Z then
      (Return false, mk_state f1 f2 b1 b2 tr')
    else
      (Continue, mk_state f1 f2 b1 b2 tr').

(** [while (file1 && file2) { body }  return true;] *)
Equations? compare_loop (n : N) (st : loop_state) : bool * loop_state
  by wf (List.length (rest (file1 st))) lt :=
  compare_loop n st with inspect (loop_cond st) := {
    | exist _ false _ => (true, st);
    | exist _ true _ with inspect (loop_body n st) := {
        | exist _ (Return b, st') _ => (b, st');
        | exist _ (Break, st') _ => (true, st');
        | exist _ (Continue, st') Hbody => compare_loop n st' } }.
Proof.
  (* a pass that falls through to the loop test took bytes from [file1] *)
  clear compare_loop. revert Hbody. unfold loop_body, ifstream_read, length_N.
  destruct (good (file1 st)), (good (file2 st)); cbn [gcount];
    repeat match goal with
      | |- context [if ?c then _ else _] => destruct c eqn:?
      end; try discriminate; intros [= <-]; cbn [file1 rest];
    repeat match goal with
      | H : (_ =? _)%N = false |- _ => apply N.eqb_neq in H
      end; try congruence; rewrite length_skipn; lia.
Qed.

(** ** [compare_files] *)

Definition err_open : string := "Error: Unable to open one or both files.".

Definition compare_files (fsys : filesystem) (file1_path file2_path : path)
  (buffer_size_bytes : N) : outcome bool * trace :=
  let f1 := ifstream_open fsys file1_path in
  let f2 := ifstream_open fsys file2_path in
  let tr := [EvOpen file1_path; EvOpen file2_path] in
  if negb (is_open f1) || negb (is_open f2) then
    (Done false, tr ++ [EvStderr err_open])
  else
    match file_size fsys file1_path with
    | Throw e => (Throw e, tr ++ [EvFileSize file1_path])
    | Done size1 =>
        let tr := tr ++ [EvFileSize file1_path; EvFileSize file2_path] in
        match file_size fsys file2_path with
        | Throw e => (Throw e, tr)
        | Done size2 =>
            if negb (size1 =? size2)%N then (Done false, tr)
            else
              match new_buffer buffer_size_bytes with
              | Throw e => (Throw e, tr)
              | Done buffer1 =>
                  match new_buffer buffer_size_bytes with
                  | Throw e => (Throw e, tr)
                  | Done buffer2 =>
                      let '(b, st) :=
                        compare_loop buffer_size_bytes
                          (mk_state f1 f2 buffer1 buffer2 tr) in
                      (Done b, events st)
                  end
              end
        end
    end.

(** ** [std::stoul] and [main] *)

Definition ULONG_MAX : N := 2 ^ 64 - 1.

(** [isspace] in the C locale. *)
Definition isspace (c : ascii) : bool :=
  let n := N_of_ascii c in ((n =? 32) || ((9 <=? n) && (n <=? 13)))%N.

Definition digit_of (c : ascii) : option N :=
  let n := N_of_ascii c in
  if ((48 <=? n) && (n <=? 57))%N then Some (n - 48)%N else None.

Fixpoint skip_spaces (s : string) : string :=
  match s with
  | String c s' => if isspace c then skip_spaces s' else s
  | EmptyString => s
  end.

(** The longest prefix of decimal digits, as a number; [None] when the
    prefix is empty. *)
Fixpoint read_digits (s : string) (acc : option N) : option N :=
  match s with
  | String c s' =>
      match digit_of c with
      | Some d =>
          read_digits s' (Some (10 * match acc with Some a => a | None => 0 end + d)%N)
      | None => acc
      end
  | EmptyString => acc
  end.

(** [std::stoul(s)], base 10: white space, an optional sign, digits;
    what follows the digits is ignored.  A minus sign negates the value
    in [unsigned long], as [strtoul] does. *)
Definition stoul (s : string) : outcome N :=
  let s1 := skip_spaces s in
  let '(neg, s2) :=
    match s1 with
    | String "-"%char r => (true, r)
    | String "+"%char r => (false, r)
    | _ => (false, s1)
    end in
  match read_digits s2 None with
  | None => Throw invalid_argument
  | Some v =>
      if (ULONG_MAX <? v)%N then Throw out_of_range
      else Done (if neg then (2 ^ 64 - v) mod 2 ^ 64 else v)%N
  end.

Definition usage : string := "Usage: ./compare <file1> <file2> [buffer_size_mb]".

(** The optional third argument, in mebibytes; 8 when it is absent. *)
Definition buffer_size_mb_of (argv : list string) : outcome N :=
  if (Z.of_nat (List.length argv) >=? 4)%Z then stoul (nth 3 argv "")
  else Done 8%N.

(** [buffer_size_mb * 1024ULL * 1024ULL] in 64-bit unsigned arithmetic. *)
Definition buffer_size_bytes_of (buffer_size_mb : N) : N :=
  ((buffer_size_mb * 1024 * 1024) mod 2 ^ 64)%N.

(** [main(argc, argv)] with [argc = length argv].  The result is the value
    returned from [main], the exit code of the process, or the exception
    that leaves [main].  The report written to [std::cout] contains the
    elapsed time and is not part of the model. *)
Definition main (fsys : filesystem) (argv : list string) : outcome Z * trace :=
  let argc := Z.of_nat (List.length argv) in
  if (argc <? 3)%Z then (Done 1%Z, [EvStderr usage])
  else
    let file1 := nth 1 argv "" in
    let file2 := nth 2 argv "" in
    match buffer_size_mb_of argv with
    | Throw e => (Throw e, [])
    | Done buffer_size_mb =>
        let buffer_size_bytes := buffer_size_bytes_of buffer_size_mb in
        match compare_files fsys file1 file2 buffer_size_bytes with
        | (Throw e, tr) => (Throw e, tr)
        | (Done equal, tr) => (Done (if equal then 0 else 2)%Z, tr)
        end
    end.

(** ** One pass through the loop, named piece by piece *)

(** The two [read] calls of a pass: the stream afterwards and the buffer. *)
Definition chunk1 (n : N) (st : loop_state) : ifstream * list byte :=
  ifstream_read (file1 st) (buffer1 st) n.

Definition chunk2 (n : N) (st : loop_state) : ifstream * list byte :=
  ifstream_read (file2 st) (buffer2 st) n.

(** The smaller of the two lengths actually read. *)
Definition compared_length (n : N) (st : loop_state) : N :=
  N.min (gcount (fst (chunk1 n st))) (gcount (fst (chunk2 n st))).

(** The state once both reads and the [memcmp] of a pass are done. *)
Definition after_memcmp (n : N) (st : loop_state) : loop_state :=
  mk_state (fst (chunk1 n st)) (fst (chunk2 n st))
           (snd (chunk1 n st)) (snd (chunk2 n st))
           (events st ++ [EvRead File1 n (gcount (fst (chunk1 n st)));
                          EvRead File2 n (gcount (fst (chunk2 n st)));
                          EvMemcmp (compared_length n st)]).

(** The trace up to the test of [is_open], and up to the test of the sizes. *)
Definition tr_open (A B : path) : trace := [EvOpen A; EvOpen B].

Definition tr_sizes (A B : path) : trace :=
  [EvOpen A; EvOpen B; EvFileSize A; EvFileSize B].

(** The situation at the loop test when the two files have the same length:
    the streams hold equally many bytes, carry the same state bits, and a
    stream that has failed has nothing left. *)
Definition aligned (st : loop_state) : Prop :=
  List.length (rest (file1 st)) = List.length (rest (file2 st)) /\
  eofbit (file1 st) = failbit (file1 st) /\
  eofbit (file2 st) = failbit (file2 st) /\
  failbit (file1 st) = failbit (file2 st) /\
  (failbit (file1 st) = true -> rest (file1 st) = []).

(** ** Measures on traces *)

Definition stream_id_eqb (f g : stream_id) : bool :=
  match f, g with
  | File1, File1 | File2, File2 => true
  | _, _ => false
  end.

(** Number of bytes the reads of the trace delivered from stream [f]. *)
Fixpoint bytes_read (f : stream_id) (tr : trace) : N :=
  match tr with
  | [] => 0
  | EvRead g _ got :: tr' =>
      ((if stream_id_eqb f g then got else 0) + bytes_read f tr')%N
  | _ :: tr' => bytes_read f tr'
  end.

(** Number of [read] calls the trace holds for stream [f]. *)
Fixpoint count_reads (f : stream_id) (tr : trace) : nat :=
  match tr with
  | [] => 0
  | EvRead g _ _ :: tr' =>
      (if stream_id_eqb f g then 1 else 0) + count_reads f tr'
  | _ :: tr' => count_reads f tr'
  end.

(** What a [read] or [memcmp] of a run with chunk size [n] may look like:
    a read asks for [n] bytes and delivers at most [n]; a comparison covers
    at least one and at most [n] bytes. *)
Definition io_ok (n : N) (e : event) : bool :=
  match e with
  | EvRead _ requested got => ((requested =? n) && (got <=? n))%N
  | EvMemcmp len => ((0 <? len) && (len <=? n))%N
  | _ => true
  end.

(** Both streams carry the same state bits, and if they have failed both
    are exhausted: the situation at every loop test of a run that started
    on two freshly opened streams, whatever their lengths. *)
Definition in_step (st : loop_state) : Prop :=
  eofbit (file1 st) = failbit (file1 st) /\
  eofbit (file2 st) = failbit (file2 st) /\
  failbit (file1 st) = failbit (file2 st) /\
  (failbit (file1 st) = true -> rest (file1 st) = [] /\ rest (file2 st) = []).

(** The state in which [compare_files] enters the loop. *)
Definition st_opened (A B : path) (c1 c2 : list byte) (n : N) : loop_state :=
  mk_state (mk_ifstream true c1 false false 0)
           (mk_ifstream true c2 false false 0)
           (zeros n) (zeros n) (tr_sizes A B).

(** What [compare_files] answers, read off the two nodes and the buffer
    size. *)
Definition bytes_eqb (c1 c2 : list byte) : bool :=
  if list_eq_dec Byte.byte_eq_dec c1 c2 then true else false.

Definition answer (fsys : filesystem) (A B : path) (n : N) : outcome bool :=
  match fsys A, fsys B with
  | Some (Regular c1), Some (Regular c2) =>
      if negb (length_N c1 =? length_N c2)%N then Done false
      else if (vector_max_size <? n)%N then Throw length_error
      else Done ((n =? 0)%N || bytes_eqb c1 c2)
  | Some _, Some _ => Throw filesystem_error
  | _, _ => Done false
  end.


(** ** Sample data *)

Definition bytes_of (s : string) : list byte := list_byte_of_string s.

Definition fs_demo : filesystem := fun p =>
  if String.eqb p "a" then Some (Regular (bytes_of "ACGTACGT"))
  else if String.eqb p "b" then Some (Regular (bytes_of "ACGTACGA"))
  else if String.eqb p "c" then Some (Regular (bytes_of "ACGTACGT"))
  else if String.eqb p "d" then Some (Regular (bytes_of "TCGTACGT"))
  else if String.eqb p "s" then Some (Regular (bytes_of "ACG"))
  else if String.eqb p "e1" then Some (Regular [])
  else if String.eqb p "e2" then Some (Regular [])
  else if String.eqb p "dir" then Some Directory
  else None.

(** Two streams that are out of step, as after a change of one file
    between the metadata query and the reads. *)
Definition st_race : loop_state :=
  mk_state (mk_ifstream true (bytes_of "ACGT") false false 0)
           (mk_ifstream true (bytes_of "TC") false false 0)
           (zeros 4) (zeros 4) [].

(** Two streams whose first chunks differ in their first byte. *)
Definition st_differ : loop_state :=
  mk_state (ifstream_open fs_demo "a") (ifstream_open fs_demo "d")
           (zeros 3) (zeros 3) [].

Definition st_same : loop_state :=
  mk_state (ifstream_open fs_demo "a") (ifstream_open fs_demo "c")
           (zeros 3) (zeros 3) [].


(** * Properties *)

(** ** The loop, unfolded *)

(** The loop as the C++ text reads: test, body, and again. *)
Lemma compare_loop_eq n st :
  compare_loop n st =
  if loop_cond st then
    match loop_body n st with
    | (Return b, st') => (b, st')
    | (Break, st') => (true, st')
    | (Continue, st') => compare_loop n st'
    end
  else (true, st).
Proof.
  funelim (compare_loop n st); clear Heqcall;
    repeat match goal with
      | H : loop_cond _ = _ |- context [loop_cond _] => rewrite H
      | H : loop_body _ _ = _ |- context [loop_body _ _] => rewrite H
      end; reflexivity.
Qed.

(** ** Bytes, [memcmp] and [read] *)

Lemma byte_to_N_inj x y : Byte.to_N x = Byte.to_N y -> x = y.
Proof.
  intros H. pose proof (Byte.of_to_N x) as Hx. rewrite H, Byte.of_to_N in Hx.
  now injection Hx.
Qed.

(** [memcmp] answers 0 exactly when the two compared prefixes coincide. *)
Lemma memcmp_nat_zero k : forall a b,
  k <= List.length a -> k <= List.length b ->
  (memcmp_nat a b k = 0%Z <-> firstn k a = firstn k b).
Proof.
  induction k as [|k IH]; intros a b Ha Hb; simpl.
  - split; reflexivity.
  - destruct a as [|x a]; [simpl in Ha; lia|].
    destruct b as [|y b]; [simpl in Hb; lia|].
    simpl in Ha, Hb.
    destruct (N.compare_spec (Byte.to_N x) (Byte.to_N y)) as [E|L|G].
    + apply byte_to_N_inj in E. subst y.
      rewrite IH by lia. split; [now intros ->|now intros [= ->]].
    + split; [discriminate|]. intros [= -> _]. lia.
    + split; [discriminate|]. intros [= -> _]. lia.
Qed.

Lemma memcmp_zero a b k :
  N.to_nat k <= List.length a -> N.to_nat k <= List.length b ->
  (memcmp a b k = 0%Z <-> firstn (N.to_nat k) a = firstn (N.to_nat k) b).
Proof. apply memcmp_nat_zero. Qed.

(** What [read] does to a stream on which no state bit is set. *)
Lemma ifstream_read_good s buf n :
  good s = true ->
  let k := N.min n (length_N (rest s)) in
  ifstream_read s buf n =
  (mk_ifstream (is_open s) (skipn (N.to_nat k) (rest s))
               (negb (k =? n)%N) (negb (k =? n)%N) k,
   firstn (N.to_nat k) (rest s) ++ skipn (N.to_nat k) buf).
Proof.
  intros Hg. unfold ifstream_read. rewrite Hg.
  unfold good in Hg. apply andb_prop in Hg as [He Hf].
  apply negb_true_iff in He, Hf. now rewrite He, Hf.
Qed.

(** After [read] the front of the buffer holds exactly the bytes taken from
    the stream, whatever the buffer held before. *)
Lemma buffer_front (r buf : list byte) k :
  k <= List.length r ->
  firstn k (firstn k r ++ skipn k buf) = firstn k r.
Proof.
  intros Hk. rewrite firstn_app, length_firstn.
  replace (k - Nat.min k (List.length r)) with 0 by lia.
  rewrite firstn_firstn. simpl. rewrite app_nil_r. f_equal. lia.
Qed.

Lemma buffer_front_length (r buf : list byte) k :
  k <= List.length r -> k <= List.length (firstn k r ++ skipn k buf).
Proof. intros Hk. rewrite length_app, length_firstn. lia. Qed.

Lemma min_to_nat_le n (r : list byte) :
  N.to_nat (N.min n (length_N r)) <= List.length r.
Proof. unfold length_N. lia. Qed.

(** ** The loop on two streams that advance together *)

Lemma same_length_nil (a b : list byte) :
  List.length a = List.length b -> a = [] -> b = [].
Proof. intros H ->. destruct b; [reflexivity|discriminate]. Qed.

Lemma firstn_skipn_eq (k : nat) (a b : list byte) :
  firstn k a = firstn k b -> skipn k a = skipn k b -> a = b.
Proof.
  intros Hf Hs. rewrite <- (firstn_skipn k a), <- (firstn_skipn k b).
  now rewrite Hf, Hs.
Qed.

(** With a positive chunk size the loop answers [true] exactly when the
    bytes still to be read are the same in both streams. *)
Lemma compare_loop_aligned n st :
  (0 < n)%N -> aligned st ->
  (fst (compare_loop n st) = true <-> rest (file1 st) = rest (file2 st)).
Proof.
  intros Hn.
  remember (List.length (rest (file1 st))) as m eqn:Hm.
  revert st Hm. induction m as [m IH] using lt_wf_ind.
  intros st -> (Hlen & He1 & He2 & Hf & Hnil).
  rewrite compare_loop_eq. unfold loop_cond, ifstream_bool.
  rewrite <- Hf.
  destruct (failbit (file1 st)) eqn:F1; simpl.
  - specialize (Hnil eq_refl).
    rewrite Hnil, (same_length_nil _ _ Hlen Hnil). split; reflexivity.
  - assert (G1 : good (file1 st) = true) by (unfold good; now rewrite He1, F1).
    assert (G2 : good (file2 st) = true)
      by (unfold good; now rewrite He2, <- Hf).
    unfold loop_body.
    rewrite (ifstream_read_good _ (buffer1 st) n G1).
    rewrite (ifstream_read_good _ (buffer2 st) n G2).
    unfold length_N. rewrite <- Hlen.
    set (r1 := rest (file1 st)) in *. set (r2 := rest (file2 st)) in *.
    set (k := N.min n (N.of_nat (List.length r1))).
    cbn [gcount]. rewrite N.eqb_refl. cbn [negb].
    assert (Hk1 : N.to_nat k <= List.length r1) by (subst k; lia).
    assert (Hk2 : N.to_nat k <= List.length r2) by lia.
    destruct (k =? 0)%N eqn:K0.
    + apply N.eqb_eq in K0. simpl.
      assert (Hz : r1 = []) by (destruct r1; [reflexivity|simpl in *; lia]).
      rewrite Hz in *. rewrite (same_length_nil _ _ Hlen eq_refl). split; reflexivity.
    + apply N.eqb_neq in K0.
      match goal with |- context [memcmp ?a ?b k] =>
        pose proof (@memcmp_zero a b k (buffer_front_length _ _ _ Hk1)
                                 (buffer_front_length _ _ _ Hk2)) as Hmc
      end.
      rewrite !buffer_front in Hmc by assumption.
      match type of Hmc with (?c = 0%Z <-> _) => destruct (Z.eqb_spec c 0) as [Hc|Hc] end;
        cbn [negb fst].
      * apply Hmc in Hc.
        match goal with |- context [compare_loop n ?st'] =>
          rewrite (IH (List.length (rest (file1 st'))) ltac:(cbn; rewrite length_skipn; lia)
                      st' eq_refl)
        end.
        -- cbn. split; [intros Hs; eapply firstn_skipn_eq; eauto|now intros ->].
        -- repeat split; cbn; try reflexivity.
           ++ rewrite !length_skipn. lia.
           ++ intros Hshort. apply negb_true_iff, N.eqb_neq in Hshort.
              apply skipn_all2. subst k. lia.
      * split; [discriminate|]. intros Heq. exfalso. apply Hc, Hmc.
        now rewrite Heq.
Qed.

(** With a chunk size of zero every [read] delivers nothing and sets no
    state bit, so the first pass leaves the loop through [break]. *)
Lemma compare_loop_zero st : fst (compare_loop 0 st) = true.
Proof.
  rewrite compare_loop_eq. destruct (loop_cond st); [|reflexivity].
  unfold loop_body, ifstream_read.
  destruct (good (file1 st)), (good (file2 st)); cbn [gcount];
    rewrite ?N.min_0_l; reflexivity.
Qed.

(** ** [compare_files] on two files that open *)

Lemma compare_files_opened fsys A B c1 c2 n :
  fsys A = Some (Regular c1) -> fsys B = Some (Regular c2) ->
  compare_files fsys A B n =
  if negb (length_N c1 =? length_N c2)%N then (Done false, tr_sizes A B)
  else if (vector_max_size <? n)%N then (Throw length_error, tr_sizes A B)
  else
    let '(b, st) := compare_loop n (st_opened A B c1 c2 n) in
    (Done b, events st).
Proof.
  intros HA HB. unfold compare_files, ifstream_open, file_size, new_buffer.
  rewrite HA, HB. cbn [is_open negb orb].
  destruct (negb (length_N c1 =? length_N c2)%N); [reflexivity|].
  destruct (vector_max_size <? n)%N; reflexivity.
Qed.

Lemma aligned_opened (c1 c2 b1 b2 : list byte) tr :
  List.length c1 = List.length c2 ->
  aligned (mk_state (mk_ifstream true c1 false false 0)
                    (mk_ifstream true c2 false false 0) b1 b2 tr).
Proof. intros H. repeat split; cbn; try assumption; discriminate. Qed.

Lemma bool_ext (b b' : bool) : (b = true <-> b' = true) -> b = b'.
Proof. destruct b, b'; intuition congruence. Qed.

Lemma bytes_eqb_eq c1 c2 : bytes_eqb c1 c2 = true <-> c1 = c2.
Proof.
  unfold bytes_eqb. destruct (list_eq_dec Byte.byte_eq_dec c1 c2);
    split; congruence.
Qed.

(** The outcome of [compare_files] in every case. *)
Lemma compare_files_outcome fsys A B n :
  fst (compare_files fsys A B n) = answer fsys A B n.
Proof.
  unfold answer.
  destruct (fsys A) as [[c1|]|] eqn:HA, (fsys B) as [[c2|]|] eqn:HB.
  2-9: unfold compare_files, ifstream_open, file_size; rewrite HA, HB;
       reflexivity.
  rewrite (compare_files_opened fsys A B c1 c2 n HA HB). unfold length_N.
  destruct (N.eqb_spec (N.of_nat (List.length c1)) (N.of_nat (List.length c2)))
    as [Hl|Hl]; cbn [negb]; [|reflexivity].
  destruct (vector_max_size <? n)%N; [reflexivity|].
  apply Nat2N.inj in Hl.
  destruct (compare_loop n (st_opened A B c1 c2 n)) as [b st] eqn:E.
  cbn [fst]. f_equal. replace b with (fst (compare_loop n (st_opened A B c1 c2 n)))
    by now rewrite E.
  destruct (N.eqb_spec n 0) as [->|Hn]; cbn [orb].
  - apply compare_loop_zero.
  - apply bool_ext.
    rewrite (compare_loop_aligned n (st_opened A B c1 c2 n))
      by (try apply aligned_opened; lia).
    cbn. now rewrite bytes_eqb_eq.
Qed.

(** When the answer is [true]. *)
Lemma answer_true fsys A B n :
  answer fsys A B n = Done true <->
  exists c1 c2, fsys A = Some (Regular c1) /\ fsys B = Some (Regular c2) /\
    List.length c1 = List.length c2 /\ (n <= vector_max_size)%N /\
    (n = 0%N \/ c1 = c2).
Proof.
  unfold answer.
  destruct (fsys A) as [[c1|]|], (fsys B) as [[c2|]|].
  2-9: split; [discriminate|intros (? & ? & ? & ? & _); congruence].
  unfold length_N.
  destruct (N.eqb_spec (N.of_nat (List.length c1)) (N.of_nat (List.length c2)))
    as [Hl|Hl]; cbn [negb].
  - destruct (N.ltb_spec vector_max_size n) as [Hm|Hm].
    + split; [discriminate|]. intros (? & ? & _ & _ & _ & ? & _). lia.
    + split.
      * intros [= Hb]. exists c1, c2. repeat split; try assumption; try lia.
        apply orb_prop in Hb as [Hb|Hb];
          [left; now apply N.eqb_eq|right; now apply bytes_eqb_eq].
      * intros (d1 & d2 & [= <-] & [= <-] & _ & _ & Hc). f_equal.
        apply orb_true_intro.
        destruct Hc as [-> | ->]; [now left|right; now apply bytes_eqb_eq].
  - split; [discriminate|].
    intros (d1 & d2 & [= <-] & [= <-] & Hlen & _). lia.
Qed.

Lemma open_failure_answer fsys A B n :
  fsys A = None \/ fsys B = None ->
  compare_files fsys A B n = (Done false, tr_open A B ++ [EvStderr err_open]).
Proof.
  intros H. unfold compare_files, ifstream_open.
  destruct H as [-> | ->]; [|destruct (fsys A) as [[|]|]]; reflexivity.
Qed.

(** ** The comparison routine *)




(** C2. Whatever the buffer size, when one of the two paths cannot be
    opened for reading [compare_files] completes, without an exception, with
    the answer [false]; all it has done is try to open both paths and write
    the error message. *)
Theorem compare_files_open_failure fsys A B n :
  fsys A = None \/ fsys B = None ->
  compare_files fsys A B n = (Done false, tr_open A B ++ [EvStderr err_open]).
Proof. apply open_failure_answer. Qed.

Lemma compare_files_open_failure_witness :
  compare_files fs_demo "a" "missing" 4 =
  (Done false, tr_open "a" "missing" ++ [EvStderr err_open]).
Proof.
  apply (compare_files_open_failure fs_demo "a" "missing" 4).
  right. reflexivity.
Defined.

(** C3. When both files open and the lengths reported by the file system
    differ, [compare_files] answers [false] right after the two metadata
    queries: no [read] is issued on either stream. *)
Theorem compare_files_size_mismatch fsys A B c1 c2 n :
  fsys A = Some (Regular c1) -> fsys B = Some (Regular c2) ->
  file_size fsys A <> file_size fsys B ->
  compare_files fsys A B n = (Done false, tr_sizes A B) /\
  existsb is_read (snd (compare_files fsys A B n)) = false.
Proof.
  intros HA HB Hsz. unfold file_size in Hsz. rewrite HA, HB in Hsz.
  assert (E : compare_files fsys A B n = (Done false, tr_sizes A B)).
  { rewrite (compare_files_opened fsys A B c1 c2 n HA HB).
    destruct (N.eqb_spec (length_N c1) (length_N c2)) as [Hl|Hl];
      [now rewrite Hl in Hsz|reflexivity]. }
  split; [exact E|now rewrite E].
Qed.

Lemma compare_files_size_mismatch_witness :
  compare_files fs_demo "a" "s" 4 = (Done false, tr_sizes "a" "s") /\
  existsb is_read (snd (compare_files fs_demo "a" "s" 4)) = false.
Proof.
  apply (compare_files_size_mismatch fs_demo "a" "s"
           (bytes_of "ACGTACGT") (bytes_of "ACG") 4);
    [reflexivity | reflexivity | discriminate].
Defined.





Lemma bytes_eqb_sym c1 c2 : bytes_eqb c1 c2 = bytes_eqb c2 c1.
Proof. apply bool_ext. rewrite !bytes_eqb_eq. split; congruence. Qed.

(** C8. Exchanging the two paths does not change the answer, for all
    paths, openable or not, and every buffer size, zero included. *)
Theorem compare_files_symmetric fsys A B n :
  fst (compare_files fsys A B n) = fst (compare_files fsys B A n).
Proof.
  rewrite !compare_files_outcome. unfold answer.
  destruct (fsys A) as [[c1|]|], (fsys B) as [[c2|]|]; try reflexivity.
  rewrite (N.eqb_sym (length_N c2)), (bytes_eqb_sym c2). reflexivity.
Qed.

(** C10. With a buffer size of zero, two files that open and have the same
    length compare equal whatever they contain: the first pass through the
    loop reads zero bytes from each stream and leaves the loop before any
    [memcmp]. *)
Theorem compare_files_zero_buffer fsys A B c1 c2 :
  fsys A = Some (Regular c1) -> fsys B = Some (Regular c2) ->
  List.length c1 = List.length c2 ->
  compare_files fsys A B 0 =
    (Done true, tr_sizes A B ++ [EvRead File1 0 0; EvRead File2 0 0]).
Proof.
  intros HA HB Hl.
  rewrite (compare_files_opened fsys A B c1 c2 0 HA HB).
  unfold length_N. rewrite Hl, N.eqb_refl. cbn [negb].
  change (vector_max_size <? 0)%N with false. cbv iota.
  rewrite compare_loop_eq. unfold loop_body, ifstream_read. cbn.
  rewrite !N.min_0_l. reflexivity.
Qed.

Lemma compare_files_zero_buffer_witness :
  compare_files fs_demo "a" "b" 0 =
    (Done true, tr_sizes "a" "b" ++ [EvRead File1 0 0; EvRead File2 0 0]).
Proof.
  apply (compare_files_zero_buffer fs_demo "a" "b"
           (bytes_of "ACGTACGT") (bytes_of "ACGTACGA"));
    reflexivity.
Defined.

(** ** Single passes through the loop *)

(** A [read] that delivers something leaves at least that many bytes in
    the buffer. *)
Lemma read_buffer_length s buf n :
  gcount (fst (ifstream_read s buf n)) <> 0%N ->
  N.to_nat (gcount (fst (ifstream_read s buf n))) <=
  List.length (snd (ifstream_read s buf n)).
Proof.
  unfold ifstream_read. destruct (good s); cbn; [|congruence].
  intros _. apply buffer_front_length, min_to_nat_le.
Qed.

(** C4. In every pass of the loop, a difference within the first
    [min] of the two read lengths bytes of the two buffers makes the function
    return [false] with both streams left as the two reads of that pass
    left them: the rest of either file is not read.  In a pass that
    reaches the comparison (both reads delivered the same, non-zero number
    of bytes) [memcmp] is applied to exactly that many bytes; the function
    returns from the state reached by that [memcmp] if the prefixes differ,
    and the loop goes on from it if they coincide. *)
Theorem loop_iteration_memcmp n st :
  loop_cond st = true ->
  let k := N.to_nat (compared_length n st) in
  (firstn k (snd (chunk1 n st)) <> firstn k (snd (chunk2 n st)) ->
   fst (compare_loop n st) = false /\
   file1 (snd (compare_loop n st)) = fst (chunk1 n st) /\
   file2 (snd (compare_loop n st)) = fst (chunk2 n st)) /\
  (gcount (fst (chunk1 n st)) = gcount (fst (chunk2 n st)) ->
   gcount (fst (chunk1 n st)) <> 0%N ->
   (firstn k (snd (chunk1 n st)) <> firstn k (snd (chunk2 n st)) ->
    compare_loop n st = (false, after_memcmp n st)) /\
   (firstn k (snd (chunk1 n st)) = firstn k (snd (chunk2 n st)) ->
    compare_loop n st = compare_loop n (after_memcmp n st))).
Proof.
  intros Hc k.
  assert (Hreach :
    gcount (fst (chunk1 n st)) = gcount (fst (chunk2 n st)) ->
    gcount (fst (chunk1 n st)) <> 0%N ->
    (firstn k (snd (chunk1 n st)) <> firstn k (snd (chunk2 n st)) ->
     compare_loop n st = (false, after_memcmp n st)) /\
    (firstn k (snd (chunk1 n st)) = firstn k (snd (chunk2 n st)) ->
     compare_loop n st = compare_loop n (after_memcmp n st))).
  { intros Heq Hnz.
    assert (Hk : compared_length n st = gcount (fst (chunk1 n st)))
      by (unfold compared_length; rewrite <- Heq; apply N.min_id).
    pose proof (read_buffer_length (file1 st) (buffer1 st) n Hnz) as L1.
    assert (Hnz2 : gcount (fst (chunk2 n st)) <> 0%N) by (now rewrite <- Heq).
    pose proof (read_buffer_length (file2 st) (buffer2 st) n Hnz2) as L2.
    fold (chunk1 n st) in L1. fold (chunk2 n st) in L2. rewrite <- Heq in L2.
    pose proof (memcmp_zero _ _ _ L1 L2) as Hmc.
    rewrite compare_loop_eq, Hc.
    unfold after_memcmp. subst k. rewrite Hk.
    unfold loop_body. fold (chunk1 n st) (chunk2 n st).
    destruct (chunk1 n st) as [f1 b1], (chunk2 n st) as [f2 b2].
    cbn [fst snd] in *.
    rewrite <- Heq, N.eqb_refl. cbn [negb].
    apply N.eqb_neq in Hnz. rewrite Hnz.
    destruct (Z.eqb_spec (memcmp b1 b2 (gcount f1)) 0) as [Hz|Hz]; cbn [negb].
    - split; [|rewrite <- app_assoc; reflexivity].
      intros Hd. now apply Hmc in Hz.
    - split; [rewrite <- app_assoc; reflexivity|].
      intros He. now apply Hmc in He. }
  split; [|exact Hreach].
  intros Hd.
  destruct (N.eq_dec (gcount (fst (chunk1 n st))) (gcount (fst (chunk2 n st))))
    as [Heq|Hne].
  - destruct (N.eq_dec (gcount (fst (chunk1 n st))) 0) as [Hz|Hnz].
    + exfalso. apply Hd. subst k. unfold compared_length.
      rewrite <- Heq, Hz. reflexivity.
    + rewrite (proj1 (Hreach Heq Hnz) Hd). auto.
  - rewrite compare_loop_eq, Hc.
    unfold loop_body. fold (chunk1 n st) (chunk2 n st).
    destruct (chunk1 n st) as [f1 b1], (chunk2 n st) as [f2 b2].
    cbn [fst snd] in *. apply N.eqb_neq in Hne. rewrite Hne. auto.
Qed.

Lemma loop_iteration_memcmp_witness :
  compare_loop 3 st_differ = (false, after_memcmp 3 st_differ) /\
  compare_loop 3 st_same = compare_loop 3 (after_memcmp 3 st_same) /\
  fst (compare_loop 4 st_race) = false.
Proof.
  split; [|split].
  - apply (proj1 (proj2 (loop_iteration_memcmp 3 st_differ eq_refl)
                    eq_refl ltac:(discriminate))).
    vm_compute. discriminate.
  - apply (proj2 (proj2 (loop_iteration_memcmp 3 st_same eq_refl)
                    eq_refl ltac:(discriminate))).
    vm_compute. reflexivity.
  - apply (proj1 (loop_iteration_memcmp 4 st_race eq_refl)).
    vm_compute. discriminate.
Defined.

(** C5. In a pass of the loop in which the two reads deliver different
    numbers of bytes the function returns [false]. *)
Theorem loop_read_lengths_differ n st :
  loop_cond st = true ->
  gcount (fst (chunk1 n st)) <> gcount (fst (chunk2 n st)) ->
  compare_loop n st =
    (false, mk_state (fst (chunk1 n st)) (fst (chunk2 n st))
                     (snd (chunk1 n st)) (snd (chunk2 n st))
                     (events st ++ [EvRead File1 n (gcount (fst (chunk1 n st)));
                                    EvRead File2 n (gcount (fst (chunk2 n st)))])).
Proof.
  intros Hc Hne. rewrite compare_loop_eq, Hc.
  unfold loop_body. fold (chunk1 n st) (chunk2 n st).
  destruct (chunk1 n st) as [f1 b1], (chunk2 n st) as [f2 b2]. cbn [fst snd] in *.
  apply N.eqb_neq in Hne. now rewrite Hne.
Qed.

Lemma loop_read_lengths_differ_witness :
  fst (compare_loop 4 st_race) = false.
Proof.
  rewrite (loop_read_lengths_differ 4 st_race eq_refl ltac:(discriminate)).
  reflexivity.
Defined.

(** ** The exit code of [main] *)

Lemma main_with_paths fsys argv mb :
  3 <= List.length argv -> buffer_size_mb_of argv = Done mb ->
  forall equal,
  fst (compare_files fsys (nth 1 argv "") (nth 2 argv "")
         (buffer_size_bytes_of mb)) = Done equal ->
  fst (main fsys argv) = Done (if equal then 0 else 2)%Z.
Proof.
  intros Hargc Hmb equal Hcmp. unfold main.
  destruct (Z.ltb_spec (Z.of_nat (List.length argv)) 3); [lia|].
  rewrite Hmb.
  destruct (compare_files fsys (nth 1 argv "") (nth 2 argv "")
              (buffer_size_bytes_of mb)) as [r tr].
  cbn [fst] in Hcmp. now subst r.
Qed.

(** C9. [main] returns 1 when fewer than two path arguments are given; it
    returns 0 exactly when two paths are given, the buffer size is accepted
    and [compare_files] answers [true]; it returns 2 when [compare_files]
    answers [false], which covers a path that cannot be opened. *)
Theorem main_exit_code fsys argv :
  (List.length argv < 3 -> main fsys argv = (Done 1%Z, [EvStderr usage])) /\
  (fst (main fsys argv) = Done 0%Z <->
   3 <= List.length argv /\
   exists mb, buffer_size_mb_of argv = Done mb /\
     fst (compare_files fsys (nth 1 argv "") (nth 2 argv "")
            (buffer_size_bytes_of mb)) = Done true) /\
  (3 <= List.length argv ->
   forall mb, buffer_size_mb_of argv = Done mb ->
     (fst (compare_files fsys (nth 1 argv "") (nth 2 argv "")
             (buffer_size_bytes_of mb)) = Done false \/
      fsys (nth 1 argv "") = None \/ fsys (nth 2 argv "") = None) ->
     fst (main fsys argv) = Done 2%Z).
Proof.
  split; [|split].
  - intros H. unfold main.
    destruct (Z.ltb_spec (Z.of_nat (List.length argv)) 3); [reflexivity|lia].
  - split.
    + unfold main.
      destruct (Z.ltb_spec (Z.of_nat (List.length argv)) 3); [discriminate|].
      destruct (buffer_size_mb_of argv) as [mb|e]; [|discriminate].
      destruct (compare_files fsys (nth 1 argv "") (nth 2 argv "")
                  (buffer_size_bytes_of mb)) as [[[|]|e] tr] eqn:E;
        cbn; try discriminate.
      intros _. split; [lia|]. exists mb. now rewrite E.
    + intros (Hargc & mb & Hmb & Hcmp).
      apply (main_with_paths fsys argv mb Hargc Hmb true Hcmp).
  - intros Hargc mb Hmb [Hcmp|Hopen].
    + apply (main_with_paths fsys argv mb Hargc Hmb false Hcmp).
    + apply (main_with_paths fsys argv mb Hargc Hmb false).
      now rewrite open_failure_answer.
Qed.

Lemma main_exit_code_witness :
  main fs_demo ["compare"; "a"] = (Done 1%Z, [EvStderr usage]) /\
  fst (main fs_demo ["compare"; "a"; "c"; "1"]) = Done 0%Z /\
  fst (main fs_demo ["compare"; "a"; "b"]) = Done 2%Z /\
  fst (main fs_demo ["compare"; "a"; "missing"; "2"]) = Done 2%Z.
Proof.
  split; [|split; [|split]].
  - apply (proj1 (main_exit_code fs_demo ["compare"; "a"])). simpl. lia.
  - apply (proj2 (proj1 (proj2 (main_exit_code fs_demo ["compare"; "a"; "c"; "1"])))).
    split; [simpl; lia|]. exists 1%N. split; vm_compute; reflexivity.
  - apply (proj2 (proj2 (main_exit_code fs_demo ["compare"; "a"; "b"]))
             ltac:(simpl; lia) 8%N eq_refl).
    left. vm_compute. reflexivity.
  - apply (proj2 (proj2 (main_exit_code fs_demo ["compare"; "a"; "missing"; "2"]))
             ltac:(simpl; lia) 2%N eq_refl).
    right. right. reflexivity.
Defined.

(** ** Evaluations *)

Example stoul_examples :
  stoul "16" = Done 16%N /\ stoul "  +7 MB" = Done 7%N /\
  stoul "-1" = Done ULONG_MAX /\ stoul "MB" = Throw invalid_argument /\
  stoul "18446744073709551616" = Throw out_of_range.
Proof. repeat split; reflexivity. Qed.

(** A byte that differs in the last, short chunk is found. *)
Example compare_last_chunk :
  compare_files fs_demo "a" "b" 3 =
  (Done false,
   tr_sizes "a" "b" ++
   [EvRead File1 3 3; EvRead File2 3 3; EvMemcmp 3;
    EvRead File1 3 3; EvRead File2 3 3; EvMemcmp 3;
    EvRead File1 3 2; EvRead File2 3 2; EvMemcmp 2]).
Proof. vm_compute. reflexivity. Qed.

(** A file length that is a multiple of the chunk size costs one more
    pass, whose reads deliver nothing. *)
Example compare_exact_chunks :
  compare_files fs_demo "a" "c" 4 =
  (Done true,
   tr_sizes "a" "c" ++
   [EvRead File1 4 4; EvRead File2 4 4; EvMemcmp 4;
    EvRead File1 4 4; EvRead File2 4 4; EvMemcmp 4;
    EvRead File1 4 0; EvRead File2 4 0]).
Proof. vm_compute. reflexivity. Qed.

(** The chunk size 0 is not a valid one: it changes the answer. *)
Example compare_zero_chunk :
  fst (compare_files fs_demo "a" "b" 0) = Done true /\
  fst (compare_files fs_demo "a" "b" 3) = Done false.
Proof. split; vm_compute; reflexivity. Qed.

(** A buffer size argument of 0, or one whose byte count wraps to 0, makes
    two different files of the same length exit with code 0. *)
Example main_zero_buffer :
  fst (main fs_demo ["compare"; "a"; "b"; "0"]) = Done 0%Z /\
  fst (main fs_demo ["compare"; "a"; "b"; "17592186044416"]) = Done 0%Z.
Proof. split; vm_compute; reflexivity. Qed.

(** A directory opens, and the query of its size throws. *)
Example compare_directory :
  compare_files fs_demo "dir" "a" 4 =
    (Throw filesystem_error, tr_open "dir" "a" ++ [EvFileSize "dir"]) /\
  compare_files fs_demo "a" "dir" 4 = (Throw filesystem_error, tr_sizes "a" "dir").
Proof. split; reflexivity. Qed.

(** The size argument -1 is accepted by [std::stoul] as 2^64 - 1; the byte
    count 2^64 - 2^20 is more than a vector takes. *)
Example main_huge_buffer :
  main fs_demo ["compare"; "a"; "c"; "-1"] = (Throw length_error, tr_sizes "a" "c").
Proof. vm_compute. reflexivity. Qed.

(** An argument that [std::stoul] rejects ends [main] by an exception:
    no exit code is returned. *)
Example main_bad_buffer_argument :
  main fs_demo ["compare"; "a"; "c"; "eight"] = (Throw invalid_argument, []).
Proof. reflexivity. Qed.

(** * Further properties of the code *)

(** ** Reasoning along the passes of the loop *)

(** To establish [P st (compare_loop n st)] for every state it is enough to
    follow the four ways a loop test and a pass can go. *)
Lemma compare_loop_passes (n : N) (P : loop_state -> bool * loop_state -> Prop) :
  (forall st, loop_cond st = false -> P st (true, st)) ->
  (forall st b st', loop_cond st = true ->
     loop_body n st = (Return b, st') -> P st (b, st')) ->
  (forall st st', loop_cond st = true ->
     loop_body n st = (Break, st') -> P st (true, st')) ->
  (forall st st', loop_cond st = true ->
     loop_body n st = (Continue, st') ->
     P st' (compare_loop n st') -> P st (compare_loop n st')) ->
  forall st, P st (compare_loop n st).
Proof.
  intros Hexit Hret Hbrk Hcont st.
  funelim (compare_loop n st); clear Heqcall; eauto.
  apply Hcont; [assumption|assumption|apply H; assumption].
Qed.

(** What one pass does to the state, whichever way it ends. *)
Lemma loop_body_state n st r st' :
  loop_body n st = (r, st') ->
  file1 st' = fst (chunk1 n st) /\ file2 st' = fst (chunk2 n st) /\
  buffer1 st' = snd (chunk1 n st) /\ buffer2 st' = snd (chunk2 n st) /\
  (events st' =
     events st ++ [EvRead File1 n (gcount (fst (chunk1 n st)));
                   EvRead File2 n (gcount (fst (chunk2 n st)))] \/
   (gcount (fst (chunk1 n st)) <> 0%N /\
    gcount (fst (chunk1 n st)) = gcount (fst (chunk2 n st)) /\
    events st' =
      events st ++ [EvRead File1 n (gcount (fst (chunk1 n st)));
                    EvRead File2 n (gcount (fst (chunk2 n st)));
                    EvMemcmp (gcount (fst (chunk1 n st)))])).
Proof.
  unfold loop_body. fold (chunk1 n st) (chunk2 n st).
  destruct (chunk1 n st) as [f1 b1], (chunk2 n st) as [f2 b2]. cbn [fst snd].
  destruct (N.eqb_spec (gcount f1) (gcount f2)) as [He|He]; cbn [negb].
  2: { intros [= <- <-]. cbn. auto 10. }
  destruct (N.eqb_spec (gcount f1) 0) as [Hz|Hz].
  { intros [= <- <-]. cbn. auto 10. }
  destruct (negb (memcmp b1 b2 (gcount f1) =? 0)%Z);
    intros [= <- <-]; cbn; rewrite <- app_assoc; cbn; auto 10.
Qed.

Lemma read_gcount_le s buf n : (gcount (fst (ifstream_read s buf n)) <= n)%N.
Proof. unfold ifstream_read. destruct (good s); cbn; lia. Qed.

Lemma bytes_read_app f tr1 tr2 :
  bytes_read f (tr1 ++ tr2) = (bytes_read f tr1 + bytes_read f tr2)%N.
Proof.
  induction tr1 as [|e tr1 IH]; [reflexivity|].
  destruct e; cbn; rewrite ?IH; lia.
Qed.

Lemma count_reads_app f tr1 tr2 :
  count_reads f (tr1 ++ tr2) = count_reads f tr1 + count_reads f tr2.
Proof.
  induction tr1 as [|e tr1 IH]; [reflexivity|].
  destruct e; cbn; rewrite ?IH; lia.
Qed.

(** The events one pass adds: one read per stream, of the chunk size, and
    possibly one comparison. *)
Lemma loop_body_trace n st r st' :
  loop_body n st = (r, st') ->
  exists pass,
    events st' = events st ++ pass /\
    forallb (io_ok n) pass = true /\
    count_reads File1 pass = 1 /\ count_reads File2 pass = 1 /\
    bytes_read File1 pass = gcount (fst (chunk1 n st)) /\
    bytes_read File2 pass = gcount (fst (chunk2 n st)).
Proof.
  intros Hb. apply loop_body_state in Hb as (_ & _ & _ & _ & Hev).
  pose proof (read_gcount_le (file1 st) (buffer1 st) n) as L1.
  pose proof (read_gcount_le (file2 st) (buffer2 st) n) as L2.
  fold (chunk1 n st) in L1. fold (chunk2 n st) in L2.
  destruct Hev as [Hev|(Hnz & Heq & Hev)]; eexists; (split; [exact Hev|]); cbn;
    rewrite N.eqb_refl; cbn;
    repeat match goal with
      | |- context [(?a <=? ?b)%N] =>
          let H := fresh in
          assert (H : (a <=? b)%N = true) by (apply N.leb_le; lia); rewrite H; clear H
      | |- context [(0 <? ?b)%N] =>
          let H := fresh in
          assert (H : (0 <? b)%N = true) by (apply N.ltb_lt; lia); rewrite H; clear H
      end; cbn; repeat split; lia.
Qed.

(** The loop only appends to the trace, and what it appends consists of
    well-formed reads and comparisons, as many reads on one stream as on
    the other. *)
Lemma compare_loop_trace n st :
  exists new,
    events (snd (compare_loop n st)) = events st ++ new /\
    forallb (io_ok n) new = true /\
    count_reads File1 new = count_reads File2 new.
Proof.
  revert st. apply (compare_loop_passes n (fun st r =>
    exists new, events (snd r) = events st ++ new /\
      forallb (io_ok n) new = true /\
      count_reads File1 new = count_reads File2 new)).
  - intros st _. exists []. now rewrite app_nil_r.
  - intros st b st' _ Hb.
    apply loop_body_trace in Hb as (pass & Hev & Hok & C1 & C2 & _).
    exists pass. cbn. repeat split; auto; lia.
  - intros st st' _ Hb.
    apply loop_body_trace in Hb as (pass & Hev & Hok & C1 & C2 & _).
    exists pass. cbn. repeat split; auto; lia.
  - intros st st' _ Hb (new & Hev' & Hok' & Hc').
    apply loop_body_trace in Hb as (pass & Hev & Hok & C1 & C2 & _).
    exists (pass ++ new). rewrite Hev', Hev, app_assoc.
    rewrite forallb_app, Hok, Hok', !count_reads_app. repeat split; lia.
Qed.

(** [compare_files] on two files that open with the same length is the
    loop started on the two fresh streams. *)
Lemma compare_files_loop fsys A B c1 c2 n :
  fsys A = Some (Regular c1) -> fsys B = Some (Regular c2) ->
  List.length c1 = List.length c2 -> (n <= vector_max_size)%N ->
  compare_files fsys A B n =
  (Done (fst (compare_loop n (st_opened A B c1 c2 n))),
   events (snd (compare_loop n (st_opened A B c1 c2 n)))).
Proof.
  intros HA HB Hl Hmax. rewrite (compare_files_opened fsys A B c1 c2 n HA HB).
  unfold length_N. rewrite Hl, N.eqb_refl. cbn [negb].
  destruct (N.ltb_spec vector_max_size n) as [?|_]; [lia|].
  now destruct (compare_loop n (st_opened A B c1 c2 n)).
Qed.

(** X1. In every run of [compare_files], whatever the paths and the buffer
    size, each [read] asks for exactly the buffer size and delivers at most
    that much, each [memcmp] covers at least one byte and at most the
    buffer size, and the two streams are read the same number of times. *)
Theorem compare_files_io_shape fsys A B n :
  forallb (io_ok n) (snd (compare_files fsys A B n)) = true /\
  count_reads File1 (snd (compare_files fsys A B n)) =
  count_reads File2 (snd (compare_files fsys A B n)).
Proof.
  destruct (fsys A) as [[c1|]|] eqn:HA, (fsys B) as [[c2|]|] eqn:HB.
  2-9: unfold compare_files, ifstream_open, file_size; rewrite HA, HB;
       split; reflexivity.
  destruct (Nat.eq_dec (List.length c1) (List.length c2)) as [Hl|Hl].
  - destruct (N.le_gt_cases n vector_max_size) as [Hmax|Hmax].
    + rewrite (compare_files_loop fsys A B c1 c2 n HA HB Hl Hmax). cbn [snd].
      destruct (compare_loop_trace n (st_opened A B c1 c2 n))
        as (new & -> & Hok & Hc).
      cbn [events st_opened].
      rewrite forallb_app, count_reads_app, count_reads_app, Hok, Hc.
      split; reflexivity.
    + rewrite (compare_files_opened fsys A B c1 c2 n HA HB).
      unfold length_N. rewrite Hl, N.eqb_refl. cbn [negb].
      apply N.ltb_lt in Hmax. rewrite Hmax. split; reflexivity.
  - rewrite (compare_files_opened fsys A B c1 c2 n HA HB).
    destruct (N.eqb_spec (length_N c1) (length_N c2)) as [E|E];
      [unfold length_N in E; lia|]. split; reflexivity.
Qed.

(** ** The buffers *)

Lemma read_buffer_capacity s buf n :
  N.to_nat n <= List.length buf ->
  List.length (snd (ifstream_read s buf n)) = List.length buf.
Proof.
  intros Hn. unfold ifstream_read, length_N. destruct (good s); cbn; [|reflexivity].
  rewrite length_app, length_firstn, length_skipn. lia.
Qed.

(** X2. The loop never stores past the end of a buffer: started with two
    buffers of at least the chunk size, it ends with buffers of unchanged
    length. *)
Theorem compare_loop_buffer_capacity n st :
  N.to_nat n <= List.length (buffer1 st) ->
  N.to_nat n <= List.length (buffer2 st) ->
  List.length (buffer1 (snd (compare_loop n st))) = List.length (buffer1 st) /\
  List.length (buffer2 (snd (compare_loop n st))) = List.length (buffer2 st).
Proof.
  revert st.
  assert (Hpass : forall st r st', loop_body n st = (r, st') ->
            N.to_nat n <= List.length (buffer1 st) ->
            N.to_nat n <= List.length (buffer2 st) ->
            List.length (buffer1 st') = List.length (buffer1 st) /\
            List.length (buffer2 st') = List.length (buffer2 st)).
  { intros st r st' Hb H1 H2.
    apply loop_body_state in Hb as (_ & _ & -> & -> & _).
    unfold chunk1, chunk2. now rewrite !read_buffer_capacity. }
  apply (compare_loop_passes n (fun st r =>
    N.to_nat n <= List.length (buffer1 st) ->
    N.to_nat n <= List.length (buffer2 st) ->
    List.length (buffer1 (snd r)) = List.length (buffer1 st) /\
    List.length (buffer2 (snd r)) = List.length (buffer2 st))).
  - auto.
  - intros st b st' _ Hb. apply (Hpass _ _ _ Hb).
  - intros st st' _ Hb. apply (Hpass _ _ _ Hb).
  - intros st st' _ Hb IH H1 H2.
    destruct (Hpass _ _ _ Hb H1 H2) as [E1 E2].
    rewrite <- E1, <- E2. apply IH; lia.
Qed.

Lemma compare_loop_buffer_capacity_witness :
  List.length (buffer1 (snd (compare_loop 3 st_same))) = 3 /\
  List.length (buffer2 (snd (compare_loop 3 st_same))) = 3.
Proof.
  apply (compare_loop_buffer_capacity 3 st_same); vm_compute; lia.
Defined.

(** ** Passes on streams that are in step *)

(** The four ways a pass can end, with the test that selects each. *)
Lemma loop_body_cases n st r st' :
  loop_body n st = (r, st') ->
  let g1 := gcount (fst (chunk1 n st)) in
  let g2 := gcount (fst (chunk2 n st)) in
  let m := memcmp (snd (chunk1 n st)) (snd (chunk2 n st)) g1 in
  (r = Return false /\ g1 <> g2) \/
  (r = Break /\ g1 = g2 /\ g1 = 0%N) \/
  (r = Return false /\ g1 = g2 /\ g1 <> 0%N /\ m <> 0%Z) \/
  (r = Continue /\ g1 = g2 /\ g1 <> 0%N /\ m = 0%Z).
Proof.
  unfold loop_body. fold (chunk1 n st) (chunk2 n st).
  destruct (chunk1 n st) as [f1 b1], (chunk2 n st) as [f2 b2]. cbn [fst snd].
  destruct (N.eqb_spec (gcount f1) (gcount f2)) as [He|He]; cbn [negb].
  2: { intros [= <- _]. auto. }
  destruct (N.eqb_spec (gcount f1) 0) as [Hz|Hz].
  { intros [= <- _]. auto. }
  destruct (Z.eqb_spec (memcmp b1 b2 (gcount f1)) 0) as [Hm|Hm]; cbn [negb];
    intros [= <- _]; auto 10.
Qed.

Lemma in_step_good st :
  in_step st -> loop_cond st = true ->
  good (file1 st) = true /\ good (file2 st) = true.
Proof.
  intros (E1 & E2 & _ & _) Hc. unfold loop_cond, ifstream_bool in Hc.
  apply andb_prop in Hc as [H1 H2]. apply negb_true_iff in H1, H2.
  unfold good. now rewrite E1, E2, H1, H2.
Qed.

Lemma in_step_failed st :
  in_step st -> loop_cond st = false ->
  rest (file1 st) = [] /\ rest (file2 st) = [].
Proof.
  intros (_ & _ & Ef & Hnil) Hc. apply Hnil.
  unfold loop_cond, ifstream_bool in Hc. rewrite <- Ef in Hc.
  now destruct (failbit (file1 st)).
Qed.

(** The effect of [read] on a good stream, field by field. *)
Lemma chunk_good s buf n :
  good s = true ->
  let k := N.min n (length_N (rest s)) in
  let r := ifstream_read s buf n in
  gcount (fst r) = k /\
  rest (fst r) = skipn (N.to_nat k) (rest s) /\
  eofbit (fst r) = negb (k =? n)%N /\
  failbit (fst r) = negb (k =? n)%N /\
  firstn (N.to_nat k) (snd r) = firstn (N.to_nat k) (rest s) /\
  N.to_nat k <= List.length (snd r).
Proof.
  intros Hg k r. subst r. rewrite (ifstream_read_good s buf n Hg).
  fold k. cbn [fst snd gcount rest eofbit failbit].
  pose proof (min_to_nat_le n (rest s)) as Hk. fold k in Hk.
  repeat split.
  - now apply buffer_front.
  - now apply buffer_front_length.
Qed.

(** On good streams that delivered equally much, [memcmp] compares the
    bytes just taken from the two files. *)
Lemma memcmp_chunks n st :
  good (file1 st) = true -> good (file2 st) = true ->
  gcount (fst (chunk1 n st)) = gcount (fst (chunk2 n st)) ->
  let g := gcount (fst (chunk1 n st)) in
  (memcmp (snd (chunk1 n st)) (snd (chunk2 n st)) g = 0%Z <->
   firstn (N.to_nat g) (rest (file1 st)) = firstn (N.to_nat g) (rest (file2 st))).
Proof.
  intros G1 G2 Heq g. subst g. unfold chunk1, chunk2 in *.
  destruct (chunk_good (file1 st) (buffer1 st) n G1) as (K1 & _ & _ & _ & F1 & L1).
  destruct (chunk_good (file2 st) (buffer2 st) n G2) as (K2 & _ & _ & _ & F2 & L2).
  rewrite <- K2, <- Heq in F2, L2. rewrite <- K1 in F1, L1.
  rewrite memcmp_zero by assumption. now rewrite F1, F2.
Qed.

(** A pass that reads equally much from two good streams leaves them in
    step. *)
Lemma in_step_after n st st' :
  good (file1 st) = true -> good (file2 st) = true ->
  gcount (fst (chunk1 n st)) = gcount (fst (chunk2 n st)) ->
  file1 st' = fst (chunk1 n st) -> file2 st' = fst (chunk2 n st) ->
  in_step st'.
Proof.
  intros G1 G2 Heq H1 H2. unfold in_step. rewrite H1, H2. clear H1 H2.
  unfold chunk1, chunk2 in *.
  destruct (chunk_good (file1 st) (buffer1 st) n G1) as (K1 & R1 & E1 & F1 & _).
  destruct (chunk_good (file2 st) (buffer2 st) n G2) as (K2 & R2 & E2 & F2 & _).
  rewrite K1, K2 in Heq.
  repeat split.
  - now rewrite E1, F1.
  - now rewrite E2, F2.
  - now rewrite F1, F2, Heq.
  - rewrite R1. rewrite F1 in H. apply negb_true_iff, N.eqb_neq in H.
    apply skipn_all2. unfold length_N in *. lia.
  - rewrite R2. rewrite F1, Heq in H. apply negb_true_iff, N.eqb_neq in H.
    apply skipn_all2. unfold length_N in *. lia.
Qed.

(** The loop alone decides equality of what two in-step streams still hold,
    equal lengths or not. *)
Lemma compare_loop_in_step n :
  (0 < n)%N ->
  forall st, in_step st ->
  (fst (compare_loop n st) = true <-> rest (file1 st) = rest (file2 st)).
Proof.
  intros Hn st. revert st.
  apply (compare_loop_passes n (fun st r =>
    in_step st -> (fst r = true <-> rest (file1 st) = rest (file2 st)))).
  - intros st Hc Hs. destruct (in_step_failed st Hs Hc) as [-> ->].
    split; reflexivity.
  - intros st b st' Hc Hb Hs. destruct (in_step_good st Hs Hc) as [G1 G2].
    pose proof (memcmp_chunks n st G1 G2) as Hmc.
    destruct (chunk_good (file1 st) (buffer1 st) n G1) as (K1 & _).
    destruct (chunk_good (file2 st) (buffer2 st) n G2) as (K2 & _).
    fold (chunk1 n st) in K1. fold (chunk2 n st) in K2.
    apply loop_body_cases in Hb. cbn zeta in Hb.
    destruct Hb as [(E & Hne)|[(E & _)|[(E & Heq & Hnz & Hm)|(E & _)]]];
      try discriminate; injection E as ->; cbn [fst];
      (split; [discriminate|]); intros Hr; exfalso.
    + apply Hne. now rewrite K1, K2, Hr.
    + apply Hm, (Hmc Heq). now rewrite Hr.
  - intros st st' Hc Hb Hs. destruct (in_step_good st Hs Hc) as [G1 G2].
    destruct (chunk_good (file1 st) (buffer1 st) n G1) as (K1 & _).
    destruct (chunk_good (file2 st) (buffer2 st) n G2) as (K2 & _).
    fold (chunk1 n st) in K1. fold (chunk2 n st) in K2.
    apply loop_body_cases in Hb. cbn zeta in Hb.
    destruct Hb as [(E & _)|[(_ & Heq & Hz)|[(E & _)|(E & _)]]];
      try discriminate.
    rewrite <- Heq in K2. rewrite Hz in K1, K2. unfold length_N in *.
    assert (Z1 : rest (file1 st) = [])
      by (destruct (rest (file1 st)); [reflexivity|cbn in K1; lia]).
    assert (Z2 : rest (file2 st) = [])
      by (destruct (rest (file2 st)); [reflexivity|cbn in K2; lia]).
    rewrite Z1, Z2. split; reflexivity.
  - intros st st' Hc Hb IH Hs. destruct (in_step_good st Hs Hc) as [G1 G2].
    pose proof (memcmp_chunks n st G1 G2) as Hmc.
    destruct (loop_body_state n st _ _ Hb) as (F1 & F2 & _).
    destruct (chunk_good (file1 st) (buffer1 st) n G1) as (K1 & R1 & _).
    destruct (chunk_good (file2 st) (buffer2 st) n G2) as (K2 & R2 & _).
    fold (chunk1 n st) in K1, R1. fold (chunk2 n st) in K2, R2.
    apply loop_body_cases in Hb. cbn zeta in Hb.
    destruct Hb as [(E & _)|[(E & _)|[(E & _)|(_ & Heq & Hnz & Hm)]]];
      try discriminate.
    rewrite (IH (in_step_after n st st' G1 G2 Heq F1 F2)).
    rewrite F1, F2, R1, R2. apply (Hmc Heq) in Hm.
    rewrite <- K2, <- Heq, <- K1.
    split; [intros Hsk; eapply firstn_skipn_eq; eauto|now intros ->].
Qed.

Lemma good_in_step st :
  good (file1 st) = true -> good (file2 st) = true -> in_step st.
Proof.
  unfold good. intros G1 G2.
  apply andb_prop in G1 as [E1 F1]. apply andb_prop in G2 as [E2 F2].
  apply negb_true_iff in E1, F1, E2, F2.
  unfold in_step. rewrite E1, F1, E2, F2. repeat split; discriminate.
Qed.

(** X3. For a positive chunk size the read loop by itself, started on two
    streams without state bits, answers [true] exactly when the two streams
    hold the same bytes.  Equal lengths are not assumed: a file whose
    length no longer matches the other one is reported as different. *)
Theorem compare_loop_decides_equality n st :
  (0 < n)%N -> good (file1 st) = true -> good (file2 st) = true ->
  (fst (compare_loop n st) = true <-> rest (file1 st) = rest (file2 st)).
Proof.
  intros Hn G1 G2. apply compare_loop_in_step; [assumption|].
  now apply good_in_step.
Qed.

Lemma compare_loop_decides_equality_witness :
  fst (compare_loop 4 st_race) = true <-> bytes_of "ACGT" = bytes_of "TC".
Proof.
  apply (compare_loop_decides_equality 4 st_race); reflexivity.
Defined.

(** ** The cost of a run *)

Lemma div_step (L n : N) :
  (0 < n)%N -> (n <= L)%N -> ((L - n) / n + 1 = L / n)%N.
Proof.
  intros Hn Hl. replace L with (1 * n + (L - n))%N at 2 by lia.
  rewrite N.div_add_l by lia. lia.
Qed.

(** Reads and bytes of the loop on two in-step streams holding the same
    bytes. *)
Lemma compare_loop_cost n :
  (0 < n)%N ->
  forall st, in_step st -> rest (file1 st) = rest (file2 st) ->
  exists new,
    events (snd (compare_loop n st)) = events st ++ new /\
    N.of_nat (count_reads File1 new) =
      (if failbit (file1 st) then 0 else length_N (rest (file1 st)) / n + 1)%N /\
    bytes_read File1 new = length_N (rest (file1 st)) /\
    bytes_read File2 new = length_N (rest (file1 st)).
Proof.
  intros Hn st. revert st.
  apply (compare_loop_passes n (fun st r =>
    in_step st -> rest (file1 st) = rest (file2 st) ->
    exists new,
      events (snd r) = events st ++ new /\
      N.of_nat (count_reads File1 new) =
        (if failbit (file1 st) then 0 else length_N (rest (file1 st)) / n + 1)%N /\
      bytes_read File1 new = length_N (rest (file1 st)) /\
      bytes_read File2 new = length_N (rest (file1 st)))).
  - intros st Hc Hs Hr. destruct (in_step_failed st Hs Hc) as [Z1 _].
    exists []. cbn. rewrite app_nil_r, Z1.
    destruct Hs as (_ & _ & Ef & _).
    unfold loop_cond, ifstream_bool in Hc. rewrite <- Ef in Hc.
    destruct (failbit (file1 st)); [auto|discriminate].
  - intros st b st' Hc Hb Hs Hr. exfalso.
    destruct (in_step_good st Hs Hc) as [G1 G2].
    pose proof (memcmp_chunks n st G1 G2) as Hmc.
    destruct (chunk_good (file1 st) (buffer1 st) n G1) as (K1 & _).
    destruct (chunk_good (file2 st) (buffer2 st) n G2) as (K2 & _).
    fold (chunk1 n st) in K1. fold (chunk2 n st) in K2.
    apply loop_body_cases in Hb. cbn zeta in Hb.
    destruct Hb as [(E & Hne)|[(E & _)|[(E & Heq & Hnz & Hm)|(E & _)]]];
      try discriminate.
    + apply Hne. now rewrite K1, K2, Hr.
    + apply Hm, (Hmc Heq). now rewrite Hr.
  - intros st st' Hc Hb Hs Hr.
    destruct (in_step_good st Hs Hc) as [G1 G2].
    destruct (chunk_good (file1 st) (buffer1 st) n G1) as (K1 & _).
    fold (chunk1 n st) in K1.
    destruct (loop_body_trace n st _ _ Hb) as (pass & Hev & _ & C1 & _ & B1 & B2).
    apply loop_body_cases in Hb. cbn zeta in Hb.
    destruct Hb as [(E & _)|[(_ & Heq & Hz)|[(E & _)|(E & _)]]];
      try discriminate.
    assert (HL : length_N (rest (file1 st)) = 0%N) by lia.
    exists pass. cbn [snd]. rewrite C1, B1, B2, <- Heq, Hz, HL.
    unfold good in G1. apply andb_prop in G1 as [_ F1].
    apply negb_true_iff in F1. rewrite F1, N.Div0.div_0_l. auto.
  - intros st st' Hc Hb IH Hs Hr.
    destruct (in_step_good st Hs Hc) as [G1 G2].
    destruct (loop_body_state n st _ _ Hb) as (F1 & F2 & _).
    destruct (chunk_good (file1 st) (buffer1 st) n G1) as (K1 & R1 & _ & Fb1 & _).
    destruct (chunk_good (file2 st) (buffer2 st) n G2) as (K2 & R2 & _).
    fold (chunk1 n st) in K1, R1, Fb1. fold (chunk2 n st) in K2, R2.
    destruct (loop_body_trace n st _ _ Hb) as (pass & Hev & _ & C1 & _ & B1 & B2).
    apply loop_body_cases in Hb. cbn zeta in Hb.
    destruct Hb as [(E & _)|[(E & _)|[(E & _)|(_ & Heq & Hnz & _)]]];
      try discriminate.
    destruct (IH (in_step_after n st st' G1 G2 Heq F1 F2)) as (new & Hev' & C' & B1' & B2').
    { rewrite F1, F2, R1, R2, <- K2, <- Heq, <- K1, Hr. reflexivity. }
    exists (pass ++ new). rewrite Hev', Hev, app_assoc.
    rewrite count_reads_app, !bytes_read_app, C1, B1, B2, B1', B2', <- Heq.
    rewrite Nat2N.inj_add, C', F1, Fb1, R1.
    unfold good in G1. apply andb_prop in G1 as [_ Ff1].
    apply negb_true_iff in Ff1. rewrite Ff1.
    set (L := length_N (rest (file1 st))) in *.
    assert (HL : length_N (skipn (N.to_nat (N.min n L)) (rest (file1 st)))
                 = (L - N.min n L)%N).
    { unfold length_N. rewrite length_skipn. subst L. unfold length_N. lia. }
    rewrite HL, K1. split; [reflexivity|]. split; [|lia].
    destruct (N.eqb_spec (N.min n L) n) as [Hfull|Hshort]; cbn [negb].
    + rewrite Hfull. rewrite <- (div_step L n) by lia. lia.
    + rewrite N.div_small by lia. lia.
Qed.

(** X4. When two files that open compare equal under a positive buffer
    size, every byte of both files has been read, and each stream has been
    read [length / buffer size + 1] times: one pass per full chunk and one
    more, which delivers the short tail or nothing. *)
Theorem compare_files_equal_cost fsys A B c1 c2 n :
  fsys A = Some (Regular c1) -> fsys B = Some (Regular c2) -> (0 < n)%N ->
  fst (compare_files fsys A B n) = Done true ->
  N.of_nat (count_reads File1 (snd (compare_files fsys A B n))) =
    (length_N c1 / n + 1)%N /\
  N.of_nat (count_reads File2 (snd (compare_files fsys A B n))) =
    (length_N c2 / n + 1)%N /\
  bytes_read File1 (snd (compare_files fsys A B n)) = length_N c1 /\
  bytes_read File2 (snd (compare_files fsys A B n)) = length_N c2.
Proof.
  intros HA HB Hn Ht.
  rewrite compare_files_outcome in Ht. apply answer_true in Ht.
  destruct Ht as (d1 & d2 & H1 & H2 & _ & Hmax & Hc).
  assert (Hc' : c1 = c2) by (destruct Hc; [lia|congruence]).
  subst c2. clear d1 d2 H1 H2 Hc.
  rewrite (compare_files_loop fsys A B c1 c1 n HA HB eq_refl Hmax). cbn [snd].
  destruct (compare_loop_cost n Hn (st_opened A B c1 c1 n))
    as (new & Hev & C1 & B1 & B2);
    [apply good_in_step; reflexivity|reflexivity|].
  destruct (compare_loop_trace n (st_opened A B c1 c1 n)) as (new' & Hev' & _ & Hc).
  rewrite Hev in Hev'. apply app_inv_head in Hev'. subst new'.
  rewrite Hev. cbn [events st_opened file1 rest failbit] in *.
  rewrite !count_reads_app, !bytes_read_app, <- Hc, B1, B2.
  cbn [tr_sizes count_reads bytes_read]. rewrite !Nat.add_0_l, !N.add_0_l.
  auto.
Qed.

Lemma compare_files_equal_cost_witness :
  N.of_nat (count_reads File1 (snd (compare_files fs_demo "a" "c" 3))) = 3%N /\
  N.of_nat (count_reads File2 (snd (compare_files fs_demo "a" "c" 3))) = 3%N /\
  bytes_read File1 (snd (compare_files fs_demo "a" "c" 3)) = 8%N /\
  bytes_read File2 (snd (compare_files fs_demo "a" "c" 3)) = 8%N.
Proof.
  apply (compare_files_equal_cost fs_demo "a" "c"
           (bytes_of "ACGTACGT") (bytes_of "ACGTACGT") 3);
    reflexivity.
Defined.





(** ** [compare_files] as a relation on files *)



(** X7. For a fixed buffer size the answer [true] is transitive: if A
    compares equal to B and B to C, then A compares equal to C. *)
Theorem compare_files_transitive fsys A B C n :
  fst (compare_files fsys A B n) = Done true ->
  fst (compare_files fsys B C n) = Done true ->
  fst (compare_files fsys A C n) = Done true.
Proof.
  rewrite !compare_files_outcome, !answer_true.
  intros (a & b & HA & HB & Hl1 & Hmax & E1) (b' & c & HB' & HC & Hl2 & _ & E2).
  rewrite HB in HB'. injection HB' as <-.
  exists a, c. repeat split; auto; [congruence|].
  destruct E1 as [?|?]; [now left|]. destruct E2 as [?|?]; [now left|].
  right. congruence.
Qed.

Lemma compare_files_transitive_witness :
  fst (compare_files fs_demo "a" "a" 3) = Done true.
Proof.
  apply (compare_files_transitive fs_demo "a" "c" "a" 3);
    vm_compute; reflexivity.
Defined.

(** ** More on [main] *)

Lemma main_few_args fsys argv :
  List.length argv < 3 -> main fsys argv = (Done 1%Z, [EvStderr usage]).
Proof.
  intros H. unfold main.
  destruct (Z.ltb_spec (Z.of_nat (List.length argv)) 3); [reflexivity|lia].
Qed.

Lemma main_paths fsys argv :
  3 <= List.length argv ->
  main fsys argv =
  match buffer_size_mb_of argv with
  | Throw e => (Throw e, [])
  | Done mb =>
      match compare_files fsys (nth 1 argv "") (nth 2 argv "")
              (buffer_size_bytes_of mb) with
      | (Throw e, tr) => (Throw e, tr)
      | (Done equal, tr) => (Done (if equal then 0 else 2)%Z, tr)
      end
  end.
Proof.
  intros H. unfold main.
  destruct (Z.ltb_spec (Z.of_nat (List.length argv)) 3); [lia|reflexivity].
Qed.

(** X8. [main] returns 1 exactly when fewer than two paths are given, and
    2 exactly when two paths are given, the buffer size is accepted and
    [compare_files] answers [false]; it returns no other code than 0, 1
    and 2. *)
Theorem main_exit_codes fsys argv :
  (fst (main fsys argv) = Done 1%Z <-> List.length argv < 3) /\
  (fst (main fsys argv) = Done 2%Z <->
   3 <= List.length argv /\
   exists mb, buffer_size_mb_of argv = Done mb /\
     fst (compare_files fsys (nth 1 argv "") (nth 2 argv "")
            (buffer_size_bytes_of mb)) = Done false) /\
  (forall c, fst (main fsys argv) = Done c -> c = 0%Z \/ c = 1%Z \/ c = 2%Z).
Proof.
  destruct (Nat.lt_ge_cases (List.length argv) 3) as [Hlt|Hge].
  - rewrite (main_few_args fsys argv Hlt). cbn [fst].
    split; [|split].
    + split; auto.
    + split; [discriminate|]. intros [? _]. lia.
    + intros c [= <-]. auto.
  - rewrite (main_paths fsys argv Hge).
    destruct (buffer_size_mb_of argv) as [mb|e].
    + destruct (compare_files fsys (nth 1 argv "") (nth 2 argv "")
                  (buffer_size_bytes_of mb)) as [[b|e] tr] eqn:E; cbn [fst].
      * split; [|split].
        -- split; [destruct b; discriminate|lia].
        -- split.
           ++ intros Hc. split; [assumption|]. exists mb.
              split; [reflexivity|]. rewrite E.
              destruct b; cbn in *; [discriminate|reflexivity].
           ++ intros (_ & mb' & [= <-] & Hf). rewrite E in Hf.
              injection Hf as ->. reflexivity.
        -- intros c [= <-]. destruct b; auto.
      * split; [|split].
        -- split; [discriminate|lia].
        -- split; [discriminate|].
           intros (_ & mb' & [= <-] & Hf). rewrite E in Hf. discriminate.
        -- discriminate.
    + cbn [fst]. split; [|split].
      * split; [discriminate|lia].
      * split; [discriminate|]. intros (_ & mb & Hmb & _). discriminate.
      * discriminate.
Qed.

Lemma main_exit_codes_witness :
  fst (main fs_demo ["compare"; "a"]) = Done 1%Z /\
  fst (main fs_demo ["compare"; "a"; "b"; "1"]) = Done 2%Z.
Proof.
  split.
  - apply (proj2 (proj1 (main_exit_codes fs_demo ["compare"; "a"]))).
    simpl. lia.
  - apply (proj2 (proj1 (proj2 (main_exit_codes fs_demo ["compare"; "a"; "b"; "1"])))).
    split; [simpl; lia|]. exists 1%N. split; vm_compute; reflexivity.
Defined.

Lemma wrap_to_zero (mb : N) :
  (mb mod 2 ^ 44 = 0)%N -> buffer_size_bytes_of mb = 0%N.
Proof.
  intros H. apply N.Div0.div_exact in H. unfold buffer_size_bytes_of.
  rewrite H.
  replace (2 ^ 44 * (mb / 2 ^ 44) * 1024 * 1024)%N
    with ((mb / 2 ^ 44) * 2 ^ 64)%N.
  - apply N.Div0.mod_mul.
  - change (2 ^ 64)%N with (2 ^ 44 * 1024 * 1024)%N. lia.
Qed.

(** X9. The byte count of the buffer is computed modulo 2^64.  A size
    argument that is a multiple of 2^44 mebibytes, 0 among them, gives a
    buffer of 0 bytes, and then two files that open with the same length
    make [main] return 0 whatever their contents. *)
Theorem main_wrapped_buffer fsys argv mb c1 c2 :
  3 <= List.length argv ->
  buffer_size_mb_of argv = Done mb -> (mb mod 2 ^ 44 = 0)%N ->
  fsys (nth 1 argv "") = Some (Regular c1) ->
  fsys (nth 2 argv "") = Some (Regular c2) ->
  List.length c1 = List.length c2 ->
  fst (main fsys argv) = Done 0%Z.
Proof.
  intros Hargc Hmb Hwrap H1 H2 Hl.
  rewrite (main_paths fsys argv Hargc), Hmb, (wrap_to_zero mb Hwrap).
  assert (Hb : fst (compare_files fsys (nth 1 argv "") (nth 2 argv "") 0)
               = Done true).
  { rewrite compare_files_outcome. apply answer_true.
    exists c1, c2. repeat split; auto. vm_compute. discriminate. }
  destruct (compare_files fsys (nth 1 argv "") (nth 2 argv "") 0) as [r tr].
  cbn [fst] in Hb. now subst r.
Qed.

Lemma main_wrapped_buffer_witness :
  fst (main fs_demo ["compare"; "a"; "b"; "35184372088832"]) = Done 0%Z.
Proof.
  apply (main_wrapped_buffer fs_demo ["compare"; "a"; "b"; "35184372088832"]
           35184372088832 (bytes_of "ACGTACGT") (bytes_of "ACGTACGA"));
    try reflexivity. simpl. lia.
Defined.




